(** * Route gate of the portfolio site: [src/middleware.ts]

    The middleware reads the request path, consults the static [routes]
    registry exported by [@/app/resources] and answers either
    [NextResponse.rewrite(new URL("/not-found", req.url))] or
    [NextResponse.next()].  The registry module itself is configuration
    data; the development is parametric in it. *)

From Stdlib Require Import ZArith Lia Bool Ascii String.
From stdpp Require Import base strings gmap list.

Local Open Scope Z_scope.
Local Open Scope string_scope.

(** ** ECMAScript string primitives used by the middleware *)

Module JSString.

(** [s.length] as an integer. *)
Definition len (s : string) : Z := Z.of_nat (String.length s).

(** Code units of [s] from offset [n] on. *)
Fixpoint skip (n : nat) (s : string) : string :=
  match n, s with
  | O, _ => s
  | S _, EmptyString => EmptyString
  | S n', String _ s' => skip n' s'
  end.

(** The first [n] code units of [s]. *)
Fixpoint keep (n : nat) (s : string) : string :=
  match n, s with
  | O, _ => EmptyString
  | S _, EmptyString => EmptyString
  | S n', String c s' => String c (keep n' s')
  end.

(** Integer arguments of [indexOf] and [substring] are clamped to
    [0 .. s.length]. *)
Definition clamp (s : string) (z : Z) : Z := Z.min (Z.max z 0) (len s).

(** Left-to-right scan: [k] is the index of the first code unit of [s]
    in the original string. *)
Fixpoint scan (search s : string) (k : Z) : Z :=
  if String.prefix search s then k
  else match s with
       | EmptyString => -1
       | String _ s' => scan search s' (k + 1)
       end.

(** [s.indexOf(search, position)]: smallest index [>= position] at which
    [search] occurs, [-1] when there is none. *)
Definition indexOf (s search : string) (position : Z) : Z :=
  let start := clamp s position in
  scan search (skip (Z.to_nat start) s) start.

(** [s.substring(start, end)]: both ends clamped, swapped when
    [start > end]. *)
Definition substring (s : string) (start end_ : Z) : string :=
  let a := clamp s start in
  let b := clamp s end_ in
  let from := Z.min a b in
  let to := Z.max a b in
  keep (Z.to_nat (to - from)) (skip (Z.to_nat from) s).

End JSString.

(** ** Objects used as maps *)

(** Values a property read on the registry can produce: an own boolean
    flag, a member inherited from [Object.prototype] (a function or an
    object), or [undefined]. *)
Inductive JSValue : Type :=
| JSBool (b : bool)
| JSInherited
| JSUndefined.

(** ECMAScript [ToBoolean]. *)
Definition truthy (v : JSValue) : bool :=
  match v with
  | JSBool b => b
  | JSInherited => true
  | JSUndefined => false
  end.

(** Property names every ordinary object inherits. *)
Definition object_prototype_keys : list string :=
  [ "constructor"; "hasOwnProperty"; "isPrototypeOf"; "propertyIsEnumerable";
    "toLocaleString"; "toString"; "valueOf"; "__proto__";
    "__defineGetter__"; "__defineSetter__";
    "__lookupGetter__"; "__lookupSetter__" ].

(** The registry: own properties of the [routes] object, path key to
    enabled flag. *)
Abbreviation Routes := (gmap string bool).

(** [key in routes]: own or inherited property. *)
Definition has_property (routes : Routes) (key : string) : bool :=
  match routes !! key with
  | Some _ => true
  | None => bool_decide (key ∈ object_prototype_keys)
  end.

(** [routes[key]]. *)
Definition get_property (routes : Routes) (key : string) : JSValue :=
  match routes !! key with
  | Some b => JSBool b
  | None => if bool_decide (key ∈ object_prototype_keys)
            then JSInherited else JSUndefined
  end.

(** ** Requests, URLs and responses *)

(** The components of a parsed URL. *)
Record URL : Type := mkURL {
  protocol : string;
  username : string;
  password : string;
  hostname : string;
  port : string;
  pathname : string;
  search : string;
  hash : string
}.

(** Scheme, host and port. *)
Definition origin (u : URL) : string * string * string :=
  (protocol u, hostname u, port u).

(** [new URL(path, base)] for a path-absolute [path]: scheme, credentials,
    host and port come from [base], the path is replaced, query and
    fragment are dropped. *)
Definition new_URL (path : string) (base : URL) : URL :=
  {| protocol := protocol base;
     username := username base;
     password := password base;
     hostname := hostname base;
     port := port base;
     pathname := path;
     search := "";
     hash := "" |}.

(** The part of [NextRequest] the middleware reads: [req.nextUrl] and
    [req.url] (the latter as parsed by [new URL]).  The record does not
    constrain [pathname]; the pathname of a request parsed by the
    framework starts with [/] ([absolute_path] below), and statements
    that depend on it say so. *)
Record NextRequest : Type := mkReq {
  nextUrl : URL;
  url : URL
}.

Module NextResponse.

Inductive t : Type :=
| rewrite (destination : URL)
| next.

Definition is_rewrite (r : t) : bool :=
  match r with
  | rewrite _ => true
  | next => false
  end.

End NextResponse.

(** ** The middleware *)

(** The guard of both [if] statements:
    [key in routes && !routes[key]]. *)
Definition disabled (routes : Routes) (key : string) : bool :=
  has_property routes key && negb (truthy (get_property routes key)).

(** [pathname.substring(0, pathname.indexOf("/", 1))]. *)
Definition basePathname (pathname : string) : string :=
  JSString.substring pathname 0 (JSString.indexOf pathname "/" 1).

Definition middleware (routes : Routes) (req : NextRequest) : NextResponse.t :=
  let pathname := pathname (nextUrl req) in
  if disabled routes pathname then
    NextResponse.rewrite (new_URL "/not-found" (url req))
  else
    let basePathname := basePathname pathname in
    if disabled routes basePathname then
      NextResponse.rewrite (new_URL "/not-found" (url req))
    else NextResponse.next.

(** [export const config]. *)
Record Config : Type := { matcher : list string }.

Definition config : Config :=
  {| matcher := [ "/about"; "/work/:path*"; "/blog/:path*"; "/gallery" ] |}.


(** The first [if] statement of [middleware] on its own, falling through
    to [NextResponse.next()]: what the full-path check alone decides. *)
Definition full_path_check (routes : Routes) (req : NextRequest)
  : NextResponse.t :=
  let pathname := pathname (nextUrl req) in
  if disabled routes pathname then
    NextResponse.rewrite (new_URL "/not-found" (url req))
  else NextResponse.next.

(** [pathname.indexOf("/", 1)] finds nothing: the path has no [/] at
    index 1 or later. *)
Definition no_second_slash (pathname : string) : bool :=
  Z.eqb (JSString.indexOf pathname "/" 1) (-1).

(** A key that is one path segment, its leading character included:
    non-empty, and without [/] from index 1 on. *)
Definition is_base_segment (key : string) : bool :=
  negb (String.eqb key "") && no_second_slash key.

(** ** Matcher patterns

    The strings of [config.matcher] are route patterns of the hosting
    framework, which compiles them; that compiler is not part of this
    repository.  [matches] below is only the literal reading of the two
    shapes that occur (a literal path, and a literal path followed by
    the wildcard [/:path*] for zero or more further segments).  It is a
    lower bound: the compiled matcher accepts more, such as one trailing
    slash and the [.json] and [.rsc] transport forms of a path.  It is
    used for one question only, whether ["/not-found"] is matched. *)
Inductive Pattern : Type :=
| Exact (path : string)
| Nested (path : string).

Definition wildcard_suffix : string := "/:path*".

Definition parse_pattern (source : string) : Pattern :=
  let n := (String.length source - String.length wildcard_suffix)%nat in
  if String.eqb (JSString.skip n source) wildcard_suffix
  then Nested (JSString.keep n source)
  else Exact source.

Definition matches (pattern : Pattern) (path : string) : bool :=
  match pattern with
  | Exact p => String.eqb path p
  | Nested p => String.eqb path p || String.prefix (p ++ "/") path
  end.

(** Some pattern of the configuration matches [path], in the literal
    reading of [matches]. *)
Definition invoked (cfg : Config) (path : string) : bool :=
  existsb (fun source => matches (parse_pattern source) path) (matcher cfg).

(** ** Sample data *)

Definition site (path : string) : URL :=
  {| protocol := "https:"; username := ""; password := "";
     hostname := "alvaromanoso.dev"; port := "";
     pathname := path; search := ""; hash := "" |}.

Definition request (path : string) : NextRequest :=
  {| nextUrl := site path; url := site path |}.

Definition gallery_off : Routes := {[ "/gallery" := false ]}.

Definition empty_key_off : Routes := {[ "" := false ]}.

Definition about_on : Routes := {[ "/about" := true; "/gallery" := false ]}.

(** The same path requested on another host. *)
Definition preview_request (path : string) : NextRequest :=
  {| nextUrl := site path;
     url := {| protocol := "http:"; username := ""; password := "";
               hostname := "localhost"; port := "3000";
               pathname := path; search := ""; hash := "" |} |}.

(** A slash-free path of [n] code units. *)
Fixpoint filler (n : nat) : string :=
  match n with
  | O => ""
  | S n' => String "x" (filler n')
  end.

(** ** Auxiliary notions for the further properties *)

(** [search] occurs in [s] at index [j]. *)
Definition occurs_at (s search : string) (j : Z) : bool :=
  String.prefix search (JSString.skip (Z.to_nat j) s).

(** The second [if] statement of [middleware] on its own. *)
Definition base_path_check (routes : Routes) (req : NextRequest)
  : NextResponse.t :=
  let basePathname := basePathname (pathname (nextUrl req)) in
  if disabled routes basePathname then
    NextResponse.rewrite (new_URL "/not-found" (url req))
  else NextResponse.next.

(** A registry with two sections switched off. *)
Definition about_gallery_off : Routes :=
  {[ "/about" := false; "/gallery" := false ]}.

(** A registry in the shape the site uses: one flag per top-level page. *)
Definition pages : Routes :=
  {[ "/" := true; "/about" := true; "/work" := false;
     "/blog" := true; "/gallery" := false ]}.

(** The empty key off, ["/about"] explicitly on. *)
Definition empty_off_about_on : Routes := {[ "" := false; "/about" := true ]}.

(** A pathname as the framework's URL parser produces it: it starts
    with [/]. *)
Definition absolute_path (path : string) : bool := String.prefix "/" path.

(** ** The base segment in the words of the specification

    "The substring from the start of the path up to (but excluding) the
    second [/] character, i.e. the first path segment including its
    leading slash", the whole string when there is no second slash.
    This definition follows the specification, not the code; it is what
    [basePathname] is compared with. *)
Fixpoint up_to_slash (s : string) : string :=
  match s with
  | EmptyString => EmptyString
  | String c s' => if Ascii.eqb c "/" then EmptyString
                   else String c (up_to_slash s')
  end.

Definition spec_base_segment (path : string) : string :=
  match path with
  | EmptyString => EmptyString
  | String c s => String c (up_to_slash s)
  end.

(** * Properties *)

(** ** String primitives *)

Section StringFacts.

Import JSString.

Lemma append_nil (t : string) : "" ++ t = t.
Proof. reflexivity. Qed.

Lemma append_cons (c : Ascii.ascii) (s t : string) :
  String c s ++ t = String c (s ++ t).
Proof. reflexivity. Qed.

Lemma append_assoc (s t u : string) : (s ++ t) ++ u = s ++ t ++ u.
Proof.
  induction s as [|c s IH]; [reflexivity|].
  by rewrite !append_cons, IH.
Qed.

Lemma prefix_app (p s : string) :
  String.prefix p s = true <-> exists rest, s = p ++ rest.
Proof.
  revert s. induction p as [|c p IH]; intros s.
  - split; [intros _; by exists s | by destruct s].
  - setoid_rewrite append_cons. destruct s as [|d s]; simpl.
    + split; [discriminate | intros [rest H]; discriminate].
    + destruct (Ascii.ascii_dec c d) as [->|Hne].
      * rewrite IH. split; intros [rest H]; exists rest; congruence.
      * split; [discriminate | intros [rest H]; congruence].
Qed.

Lemma scan_cons (search : string) (c : Ascii.ascii) (s : string) (k : Z) :
  scan search (String c s) k =
  if String.prefix search (String c s) then k else scan search s (k + 1).
Proof. reflexivity. Qed.

Lemma prefix_slash_cons (c : Ascii.ascii) (s : string) :
  String.prefix "/" (String c s) = bool_decide (c = "/"%char).
Proof.
  change (String.prefix "/" (String c s))
    with (if Ascii.ascii_dec "/" c then String.prefix "" s else false).
  destruct (Ascii.ascii_dec "/" c) as [<-|Hne].
  - by destruct s.
  - by rewrite bool_decide_eq_false_2.
Qed.

Lemma len_cons (c : Ascii.ascii) (s : string) : len (String c s) = 1 + len s.
Proof. unfold len. simpl. lia. Qed.

Lemma len_nonneg (s : string) : 0 <= len s.
Proof. unfold len. lia. Qed.

Lemma scan_lower (search s : string) (k : Z) :
  scan search s k = -1 \/ k <= scan search s k.
Proof.
  revert k. induction s as [|c s IH]; intros k.
  - unfold scan. destruct (String.prefix search ""); lia.
  - rewrite scan_cons. destruct (String.prefix search (String c s)); [lia|].
    destruct (IH (k + 1)); lia.
Qed.

(** When the scan of [s] finds no slash, the scan of [s ++ "/" ++ rest]
    stops right after [s]. *)
Lemma scan_app_slash (s rest : string) (k : Z) :
  0 <= k ->
  scan "/" s k = -1 ->
  scan "/" (s ++ "/" ++ rest) k = k + len s.
Proof.
  revert k. induction s as [|c s IH]; intros k Hk Hs.
  - rewrite append_nil, append_cons, scan_cons, prefix_slash_cons.
    rewrite bool_decide_eq_true_2 by done. unfold len. simpl. lia.
  - rewrite append_cons, scan_cons, prefix_slash_cons.
    rewrite scan_cons, prefix_slash_cons in Hs.
    case_bool_decide; [lia|].
    rewrite IH by (lia || assumption). rewrite len_cons. lia.
Qed.

Lemma keep_app (s t : string) : keep (String.length s) (s ++ t) = s.
Proof.
  induction s as [|c s IH]; [by destruct t|].
  rewrite append_cons. simpl. by rewrite IH.
Qed.

Lemma len_app (s t : string) : len (s ++ t) = len s + len t.
Proof.
  induction s as [|c s IH]; [rewrite append_nil; unfold len; simpl; lia|].
  rewrite append_cons, !len_cons, IH. lia.
Qed.

Lemma clamp_range (s : string) (z : Z) : 0 <= clamp s z <= len s.
Proof. unfold clamp. pose proof (len_nonneg s). lia. Qed.

Lemma clamp_id (s : string) (z : Z) : 0 <= z <= len s -> clamp s z = z.
Proof. unfold clamp. lia. Qed.

Lemma clamp_neg (s : string) (z : Z) : z <= 0 -> clamp s z = 0.
Proof. unfold clamp. pose proof (len_nonneg s). lia. Qed.

(** [indexOf] answers [-1] or an index inside the string, at or after the
    clamped start position. *)
Lemma indexOf_range (s search : string) (position : Z) :
  indexOf s search position = -1 \/
  clamp s position <= indexOf s search position.
Proof. unfold indexOf. apply scan_lower. Qed.

(** [s.substring(0, -1)] is the empty string. *)
Lemma substring_to_minus_one (s : string) : substring s 0 (-1) = "".
Proof.
  unfold substring. rewrite !clamp_neg by lia. by destruct s.
Qed.

End StringFacts.

(** ** The base segment *)

Section BaseSegment.

Import JSString.

(** Without a [/] at index 1 or later, [indexOf] answers [-1] and the
    base segment is [substring(0, -1)], the empty string. *)
Lemma basePathname_no_second_slash (pathname : string) :
  no_second_slash pathname = true -> basePathname pathname = "".
Proof.
  unfold no_second_slash, basePathname. intros H%Z.eqb_eq.
  rewrite H. apply substring_to_minus_one.
Qed.

Lemma indexOf_cons_1 (c : Ascii.ascii) (s search : string) :
  indexOf (String c s) search 1 = scan search s 1.
Proof.
  unfold indexOf. rewrite clamp_id by (rewrite len_cons; pose proof (len_nonneg s); lia).
  reflexivity.
Qed.

(** With a [/] at index [i >= 1] found first, the base segment is the
    path up to that slash. *)
Lemma basePathname_segment (key rest : string) :
  is_base_segment key = true ->
  basePathname (key ++ "/" ++ rest) = key.
Proof.
  unfold is_base_segment, no_second_slash.
  intros [Hne Hidx%Z.eqb_eq]%andb_true_iff.
  destruct key as [|c k]; [discriminate|].
  rewrite indexOf_cons_1 in Hidx.
  unfold basePathname. rewrite append_cons, indexOf_cons_1.
  rewrite scan_app_slash by (lia || assumption).
  unfold substring.
  pose proof (len_nonneg k). pose proof (len_nonneg rest).
  assert (Hlen : len (String c (k ++ "/" ++ rest)) = 1 + len k + 1 + len rest).
  { rewrite len_cons, len_app, len_app. unfold len at 2. simpl. lia. }
  rewrite clamp_neg by lia. rewrite clamp_id by lia.
  rewrite Z.min_l, Z.max_r by lia.
  replace (Z.to_nat (1 + len k - 0)) with (String.length (String c k))
    by (unfold len; simpl; lia).
  rewrite <- append_cons. apply keep_app.
Qed.

End BaseSegment.

(** ** The registry guard *)

(** Inherited members are truthy, so the guard
    [key in routes && !routes[key]] holds exactly for an own key whose
    flag is [false]. *)
Lemma disabled_spec (routes : Routes) (key : string) :
  disabled routes key = true <-> routes !! key = Some false.
Proof.
  unfold disabled, has_property, get_property.
  destruct (routes !! key) as [[]|]; simpl.
  - split; discriminate.
  - done.
  - destruct (bool_decide (key ∈ object_prototype_keys)); simpl;
      split; discriminate.
Qed.

Lemma disabled_false (routes : Routes) (key : string) :
  disabled routes key = false <-> routes !! key <> Some false.
Proof. rewrite <- disabled_spec. by destruct (disabled routes key). Qed.

(** ** The middleware, branch by branch *)

Lemma middleware_step1 (routes : Routes) (req : NextRequest) :
  routes !! pathname (nextUrl req) = Some false ->
  middleware routes req =
  NextResponse.rewrite (new_URL "/not-found" (url req)).
Proof. intros H%disabled_spec. unfold middleware. by rewrite H. Qed.

Lemma middleware_step2 (routes : Routes) (req : NextRequest) :
  routes !! basePathname (pathname (nextUrl req)) = Some false ->
  middleware routes req =
  NextResponse.rewrite (new_URL "/not-found" (url req)).
Proof.
  intros H%disabled_spec. unfold middleware.
  destruct (disabled routes (pathname (nextUrl req))); [done|]. by rewrite H.
Qed.

Lemma middleware_step3 (routes : Routes) (req : NextRequest) :
  routes !! pathname (nextUrl req) <> Some false ->
  routes !! basePathname (pathname (nextUrl req)) <> Some false ->
  middleware routes req = NextResponse.next.
Proof.
  intros H1%disabled_false H2%disabled_false. unfold middleware.
  by rewrite H1, H2.
Qed.

(** The answer is [next] exactly when neither guard holds. *)
Lemma middleware_next_iff (routes : Routes) (req : NextRequest) :
  middleware routes req = NextResponse.next <->
  routes !! pathname (nextUrl req) <> Some false /\
  routes !! basePathname (pathname (nextUrl req)) <> Some false.
Proof.
  rewrite <- !disabled_false. unfold middleware.
  destruct (disabled routes (pathname (nextUrl req)));
    destruct (disabled routes (basePathname (pathname (nextUrl req))));
    split; (done || by intros []).
Qed.

Lemma full_path_check_next_iff (routes : Routes) (req : NextRequest) :
  full_path_check routes req = NextResponse.next <->
  routes !! pathname (nextUrl req) <> Some false.
Proof.
  rewrite <- disabled_false. unfold full_path_check.
  by destruct (disabled routes (pathname (nextUrl req))).
Qed.

(** The scenarios of the route gate on the registry
    [{"/gallery": false}]. *)
Example scenario_gallery :
  middleware gallery_off (request "/gallery") =
  NextResponse.rewrite (site "/not-found").
Proof. vm_compute; reflexivity. Qed.

Example scenario_gallery_extra :
  basePathname "/gallery/extra" = "/gallery" /\
  middleware gallery_off (request "/gallery/extra") =
  NextResponse.rewrite (site "/not-found").
Proof. split; vm_compute; reflexivity. Qed.

Example scenario_about :
  middleware gallery_off (request "/about") = NextResponse.next.
Proof. vm_compute; reflexivity. Qed.

Example scenario_work_project :
  basePathname "/work/my-project" = "/work" /\
  middleware gallery_off (request "/work/my-project") = NextResponse.next.
Proof. split; vm_compute; reflexivity. Qed.

(** Only the first segment is looked up in step 2: a disabled key of two
    segments rewrites its own path, not the paths below it. *)
Example nested_key_gates_itself_only :
  let routes : Routes := {[ "/work/draft" := false ]} in
  middleware routes (request "/work/draft") =
    NextResponse.rewrite (site "/not-found") /\
  basePathname "/work/draft/notes" = "/work" /\
  middleware routes (request "/work/draft/notes") = NextResponse.next.
Proof. repeat split; vm_compute; reflexivity. Qed.

(** ** Claims *)

(** C1: for every registry entry [(key, false)], the middleware answers a
    request whose full path equals [key] with a rewrite to the
    ["/not-found"] target. *)
Theorem middleware_disabled_full_path
    (routes : Routes) (key : string) (req : NextRequest) :
  routes !! key = Some false ->
  pathname (nextUrl req) = key ->
  middleware routes req =
  NextResponse.rewrite (new_URL "/not-found" (url req)).
Proof. intros Hkey <-. by apply middleware_step1. Qed.

Lemma middleware_disabled_full_path_witness :
  middleware gallery_off (request "/gallery") =
  NextResponse.rewrite (new_URL "/not-found" (url (request "/gallery"))).
Proof.
  apply (middleware_disabled_full_path gallery_off "/gallery");
    vm_compute; reflexivity.
Defined.

(** C2: for every registry entry [(key, false)] whose key is a base
    segment, a request whose path is [key], then [/], then any nested
    segments has [key] as its base segment and is answered with a rewrite
    to the ["/not-found"] target. *)
Theorem middleware_disabled_base_segment
    (routes : Routes) (key rest : string) (req : NextRequest) :
  routes !! key = Some false ->
  is_base_segment key = true ->
  pathname (nextUrl req) = key ++ "/" ++ rest ->
  basePathname (pathname (nextUrl req)) = key /\
  middleware routes req =
  NextResponse.rewrite (new_URL "/not-found" (url req)).
Proof.
  intros Hkey Hseg Hpath.
  assert (Hbase : basePathname (pathname (nextUrl req)) = key)
    by (rewrite Hpath; by apply basePathname_segment).
  split; [done|]. apply middleware_step2. by rewrite Hbase.
Qed.

Lemma middleware_disabled_base_segment_witness :
  basePathname (pathname (nextUrl (request "/gallery/extra/deep"))) = "/gallery" /\
  middleware gallery_off (request "/gallery/extra/deep") =
  NextResponse.rewrite
    (new_URL "/not-found" (url (request "/gallery/extra/deep"))).
Proof.
  apply (middleware_disabled_base_segment gallery_off "/gallery" "extra/deep");
    vm_compute; reflexivity.
Defined.

(** C3: the claim asks that, for a path without a second [/], the base
    segment be the whole path (or compare equal to it), so that step 2
    repeats step 1.  On ["/about"] the code computes the empty string
    instead; with a registry that disables the empty key the request is
    rewritten although the full-path check alone lets it through. *)
Theorem basePathname_about_is_empty :
  no_second_slash "/about" = true /\
  basePathname "/about" = "" /\
  basePathname "/about" <> "/about" /\
  middleware empty_key_off (request "/about") =
    NextResponse.rewrite (new_URL "/not-found" (url (request "/about"))) /\
  full_path_check empty_key_off (request "/about") = NextResponse.next.
Proof. repeat split; try (vm_compute; reflexivity). discriminate. Qed.

(** C7: the directive is a function of the path and the registry.  Two
    requests with equal paths get the same kind of directive; when they
    also share [req.url], they get the same directive, rewrite target
    included. *)
Theorem middleware_deterministic (routes : Routes) (req1 req2 : NextRequest) :
  pathname (nextUrl req1) = pathname (nextUrl req2) ->
  NextResponse.is_rewrite (middleware routes req1) =
  NextResponse.is_rewrite (middleware routes req2) /\
  (url req1 = url req2 -> middleware routes req1 = middleware routes req2).
Proof.
  intros Hpath. unfold middleware. rewrite Hpath.
  destruct (disabled routes (pathname (nextUrl req2))).
  - split; [done | by intros ->].
  - destruct (disabled routes (basePathname (pathname (nextUrl req2)))).
    + split; [done | by intros ->].
    + done.
Qed.

Lemma middleware_deterministic_witness :
  NextResponse.is_rewrite (middleware gallery_off (request "/gallery/a")) =
  NextResponse.is_rewrite (middleware gallery_off (preview_request "/gallery/a")) /\
  (url (request "/gallery/a") = url (preview_request "/gallery/a") ->
   middleware gallery_off (request "/gallery/a") =
   middleware gallery_off (preview_request "/gallery/a")).
Proof.
  apply (middleware_deterministic gallery_off
           (request "/gallery/a") (preview_request "/gallery/a")).
  reflexivity.
Defined.

(** C8: the middleware answers with a pass-through, or with a rewrite
    whose target has the scheme, host and port of [req.url] and the path
    ["/not-found"]; nothing else. *)
Theorem middleware_output (routes : Routes) (req : NextRequest) :
  middleware routes req = NextResponse.next \/
  exists target,
    middleware routes req = NextResponse.rewrite target /\
    protocol target = protocol (url req) /\
    hostname target = hostname (url req) /\
    port target = port (url req) /\
    origin target = origin (url req) /\
    pathname target = "/not-found".
Proof.
  unfold middleware.
  destruct (disabled routes (pathname (nextUrl req)));
    [| destruct (disabled routes (basePathname (pathname (nextUrl req))))];
    [right | right | by left].
  all: by exists (new_URL "/not-found" (url req)).
Qed.

(** ** Paths without a second slash *)

Lemma filler_length (n : nat) : String.length (filler n) = n.
Proof. induction n as [|n IH]; simpl; [done | by rewrite IH]. Qed.

Lemma scan_filler (n : nat) (k : Z) : JSString.scan "/" (filler n) k = -1.
Proof.
  revert k. induction n as [|n IH]; intros k; [reflexivity|].
  cbn [filler]. rewrite scan_cons, prefix_slash_cons.
  rewrite bool_decide_eq_false_2 by discriminate. apply IH.
Qed.

Lemma no_second_slash_filler (n : nat) : no_second_slash (filler n) = true.
Proof.
  unfold no_second_slash. apply Z.eqb_eq.
  destruct n as [|n]; [reflexivity|].
  cbn [filler]. rewrite indexOf_cons_1. apply scan_filler.
Qed.

(** The registry is finite: its keys have bounded length. *)
Lemma key_length_bound (routes : Routes) :
  exists n : nat, forall key flag,
    routes !! key = Some flag -> (String.length key < n)%nat.
Proof.
  induction routes as [|k b routes Hfresh _ [n IH]] using map_first_key_ind.
  - exists O. intros key flag. by rewrite lookup_empty.
  - exists (Nat.max n (S (String.length k))). intros key flag.
    rewrite lookup_insert. case_decide as Hk.
    + intros _. subst. lia.
    + intros H%IH. lia.
Qed.

(** Some path without a second slash is not a key of the registry. *)
Lemma fresh_single_segment (routes : Routes) :
  exists path, no_second_slash path = true /\ routes !! path = None.
Proof.
  destruct (key_length_bound routes) as [n Hn].
  exists (filler n). split; [apply no_second_slash_filler|].
  destruct (routes !! filler n) as [flag|] eqn:E; [|done].
  apply Hn in E. rewrite filler_length in E. lia.
Qed.

(** For one path without a second slash: step 2 changes the outcome of
    step 1 exactly when the empty key is disabled and the path itself is
    not. *)
Lemma middleware_single_segment (routes : Routes) (req : NextRequest) :
  no_second_slash (pathname (nextUrl req)) = true ->
  (middleware routes req = full_path_check routes req <->
   routes !! "" <> Some false \/
   routes !! pathname (nextUrl req) = Some false).
Proof.
  intros Hbase%basePathname_no_second_slash.
  rewrite <- disabled_false, <- disabled_spec.
  unfold middleware, full_path_check. rewrite Hbase.
  destruct (disabled routes (pathname (nextUrl req)));
    destruct (disabled routes ""); split; auto; try discriminate.
  intros [|]; discriminate.
Qed.

(** C10: for a path with no [/] at index 1 or later the code computes the
    empty string as base segment, not the whole path; step 2 then tests
    the empty string against the registry; and the middleware agrees with
    the full-path check alone on such paths if and only if the empty
    string is not a disabled key of the registry.  Path by path, the two
    also agree when step 1 has already rewritten the request. *)
Theorem base_segment_of_single_segment_path :
  (forall path, no_second_slash path = true -> basePathname path = "") /\
  (forall (routes : Routes) (req : NextRequest),
     no_second_slash (pathname (nextUrl req)) = true ->
     middleware routes req =
     if disabled routes (pathname (nextUrl req))
     then NextResponse.rewrite (new_URL "/not-found" (url req))
     else if disabled routes ""
          then NextResponse.rewrite (new_URL "/not-found" (url req))
          else NextResponse.next) /\
  (forall routes : Routes,
     (forall req, no_second_slash (pathname (nextUrl req)) = true ->
                  middleware routes req = full_path_check routes req) <->
     routes !! "" <> Some false) /\
  (forall (routes : Routes) (req : NextRequest),
     no_second_slash (pathname (nextUrl req)) = true ->
     (middleware routes req = full_path_check routes req <->
      routes !! "" <> Some false \/
      routes !! pathname (nextUrl req) = Some false)).
Proof.
  split; [apply basePathname_no_second_slash|]. split; [|split].
  - intros routes req Hbase%basePathname_no_second_slash.
    unfold middleware. by rewrite Hbase.
  - intros routes. split.
    + intros Hall Hoff.
      destruct (fresh_single_segment routes) as (path & Hpath & Hnone).
      specialize (Hall (request path) Hpath).
      apply middleware_single_segment in Hall; [|done].
      destruct Hall as [H | H]; [done|].
      cbn in H. congruence.
    + intros Hon req Hpath. apply middleware_single_segment; auto.
  - apply middleware_single_segment.
Qed.

Lemma base_segment_of_single_segment_path_witness :
  basePathname "/about" = "" /\
  middleware empty_key_off (request "/about") =
    NextResponse.rewrite (new_URL "/not-found" (url (request "/about"))) /\
  middleware gallery_off (request "/about") =
    full_path_check gallery_off (request "/about").
Proof.
  split; [|split].
  - apply (proj1 base_segment_of_single_segment_path "/about"). reflexivity.
  - apply (proj1 (proj2 base_segment_of_single_segment_path)
             empty_key_off (request "/about")). reflexivity.
  - apply (proj2 (proj1 (proj2 (proj2 base_segment_of_single_segment_path))
                    gallery_off)).
    + vm_compute. discriminate.
    + reflexivity.
Defined.

(** * Further properties *)

(** ** [indexOf] and [substring] *)

Section Builtins.

Import JSString.

Lemma skip_nil (n : nat) : skip n "" = "".
Proof. by destruct n. Qed.

Lemma skip_skip (m n : nat) (s : string) : skip n (skip m s) = skip (m + n) s.
Proof.
  revert s. induction m as [|m IH]; intros s; [reflexivity|].
  destruct s as [|c s]; [by rewrite skip_nil | apply IH].
Qed.

Lemma skip_length (n : nat) (s : string) :
  String.length (skip n s) = (String.length s - n)%nat.
Proof.
  revert s. induction n as [|n IH]; intros s; [simpl; lia|].
  destruct s as [|c s]; [reflexivity | apply IH].
Qed.

Lemma keep_length (n : nat) (s : string) :
  String.length (keep n s) = Nat.min n (String.length s).
Proof.
  revert s. induction n as [|n IH]; intros s; [reflexivity|].
  destruct s as [|c s]; [reflexivity|]. simpl. by rewrite IH.
Qed.

Lemma keep_skip (n : nat) (s : string) : keep n s ++ skip n s = s.
Proof.
  revert s. induction n as [|n IH]; intros s; [reflexivity|].
  destruct s as [|c s]; [reflexivity|].
  cbn [keep skip]. by rewrite append_cons, IH.
Qed.

Lemma keep_all (n : nat) (s : string) :
  (String.length s <= n)%nat -> keep n s = s.
Proof.
  revert s. induction n as [|n IH]; intros s Hn.
  - destruct s; [reflexivity | simpl in Hn; lia].
  - destruct s as [|c s]; [reflexivity|].
    cbn [keep]. rewrite IH; [reflexivity | simpl in Hn; lia].
Qed.

(** What the scan answers: [-1] with no occurrence at any offset, or the
    first offset with an occurrence. *)
Lemma scan_spec (search s : string) (k : Z) :
  (scan search s k = -1 /\
   forall n, (n <= String.length s)%nat ->
             String.prefix search (skip n s) = false) \/
  (exists n, (n <= String.length s)%nat /\
             scan search s k = k + Z.of_nat n /\
             String.prefix search (skip n s) = true /\
             forall m, (m < n)%nat -> String.prefix search (skip m s) = false).
Proof.
  revert k. induction s as [|c s IH]; intros k.
  - unfold scan. destruct (String.prefix search "") eqn:E.
    + right. exists O. split; [lia|]. split; [lia|]. split; [done|]. lia.
    + left. split; [done|]. intros n Hn. by rewrite skip_nil.
  - rewrite scan_cons. destruct (String.prefix search (String c s)) eqn:E.
    + right. exists O. split; [lia|]. split; [lia|]. split; [done|]. lia.
    + destruct (IH (k + 1)) as [[Hm Hall] | (n & Hn & Hk & Hp & Hall)].
      * left. split; [done|]. intros [|n] Hn; [done|].
        apply Hall. simpl in Hn. lia.
      * right. exists (S n).
        split; [simpl; lia|]. split; [lia|]. split; [done|].
        intros [|m] Hm; [done|]. apply Hall. lia.
Qed.

(** X1: [s.indexOf(search, position)] answers [-1] exactly when [search]
    occurs at no index from the clamped position on; otherwise it answers
    the first such index, which lies inside the string. *)
Theorem indexOf_first_occurrence (s search : string) (position : Z) :
  let start := clamp s position in
  let i := indexOf s search position in
  (i = -1 /\
   forall j, start <= j <= len s -> occurs_at s search j = false) \/
  (start <= i <= len s /\
   occurs_at s search i = true /\
   forall j, start <= j < i -> occurs_at s search j = false).
Proof.
  intros start i. subst i. unfold indexOf. fold start.
  pose proof (clamp_range s position) as Hr. fold start in Hr.
  unfold len in Hr.
  destruct (scan_spec search (skip (Z.to_nat start) s) start)
    as [[Hm Hall] | (n & Hn & Hk & Hp & Hall)].
  - left. split; [done|]. intros j Hj. unfold occurs_at, len in *.
    replace (Z.to_nat j) with (Z.to_nat start + Z.to_nat (j - start))%nat
      by lia.
    rewrite <- skip_skip. apply Hall. rewrite skip_length. lia.
  - right. rewrite Hk. rewrite skip_length in Hn. unfold occurs_at, len.
    split; [lia|]. split.
    + replace (Z.to_nat (start + Z.of_nat n)) with (Z.to_nat start + n)%nat
        by lia.
      by rewrite <- skip_skip.
    + intros j Hj.
      replace (Z.to_nat j) with (Z.to_nat start + Z.to_nat (j - start))%nat
        by lia.
      rewrite <- skip_skip. apply Hall. lia.
Qed.

Lemma indexOf_first_occurrence_witness :
  indexOf "/work/my-project" "/" 1 = 5 /\
  occurs_at "/work/my-project" "/" 5 = true /\
  indexOf "/about" "/" 1 = -1.
Proof.
  destruct (indexOf_first_occurrence "/work/my-project" "/" 1)
    as [[Hnone _] | (_ & Hocc & _)].
  - vm_compute in Hnone. discriminate.
  - split; [reflexivity|]. split; [exact Hocc | reflexivity].
Defined.

(** X2: [s.substring(a, b)] has as many code units as the clamped ends
    are apart, does not depend on the order of its arguments, and for
    [a <= b] the three pieces cut at [a] and [b] concatenate to [s]. *)
Theorem substring_pieces (s : string) (a b : Z) :
  len (substring s a b) = Z.abs (clamp s b - clamp s a) /\
  substring s a b = substring s b a /\
  (a <= b ->
   substring s 0 a ++ substring s a b ++ substring s b (len s) = s).
Proof.
  pose proof (clamp_range s a) as Ha. pose proof (clamp_range s b) as Hb.
  split; [|split].
  - unfold substring, len in *.
    rewrite keep_length, skip_length. lia.
  - unfold substring. by rewrite (Z.min_comm (clamp s a)), (Z.max_comm (clamp s a)).
  - intros Hab. assert (Hle : clamp s a <= clamp s b) by (unfold clamp; lia).
    unfold substring.
    rewrite (clamp_neg s 0) by lia.
    rewrite (clamp_id s (len s)) by (pose proof (len_nonneg s); lia).
    rewrite !Z.min_l, !Z.max_r by lia.
    rewrite Z.sub_0_r. change (skip (Z.to_nat 0) s) with s.
    rewrite (keep_all (Z.to_nat (len s - clamp s b)))
      by (rewrite skip_length; unfold len in *; lia).
    replace (skip (Z.to_nat (clamp s b)) s)
      with (skip (Z.to_nat (clamp s b - clamp s a))
              (skip (Z.to_nat (clamp s a)) s))
      by (rewrite skip_skip; f_equal; lia).
    by rewrite !keep_skip.
Qed.

Lemma substring_pieces_witness :
  substring "/work/my-project" 0 5 ++ substring "/work/my-project" 5 8 ++
  substring "/work/my-project" 8 (len "/work/my-project") = "/work/my-project".
Proof.
  apply (proj2 (proj2 (substring_pieces "/work/my-project" 5 8))). lia.
Defined.

End Builtins.

(** ** The shape of the base segment *)

Section BaseSegmentShape.

Import JSString.

(** A successful scan for [/] splits the string at the slash found. *)
Lemma scan_slash_split (s : string) (k : Z) :
  0 <= k ->
  scan "/" s k <> -1 ->
  exists a rest,
    s = a ++ "/" ++ rest /\ scan "/" a k = -1 /\ scan "/" s k = k + len a.
Proof.
  revert k. induction s as [|c s IH]; intros k Hk Hfound; [done|].
  rewrite scan_cons, prefix_slash_cons in Hfound |- *.
  case_bool_decide as Hc.
  - subst c. exists "", s. split; [reflexivity|]. split; [reflexivity|].
    unfold len. simpl. lia.
  - destruct (IH (k + 1)) as (a & rest & Hs & Ha & Hidx); [lia | done |].
    exists (String c a), rest. split; [by rewrite append_cons, <- Hs|]. split.
    + rewrite scan_cons, prefix_slash_cons.
      by rewrite bool_decide_eq_false_2.
    + rewrite Hidx, len_cons. lia.
Qed.

(** Every path falls in one of two cases: no second slash and an empty
    base segment, or a one-segment key followed by [/] and a rest. *)
Lemma basePathname_cases (path : string) :
  (no_second_slash path = true /\ basePathname path = "") \/
  (exists key rest,
     is_base_segment key = true /\ path = key ++ "/" ++ rest /\
     basePathname path = key).
Proof.
  destruct (no_second_slash path) eqn:E.
  - left. split; [done|]. by apply basePathname_no_second_slash.
  - right. destruct path as [|c s]; [discriminate|].
    unfold no_second_slash in E. rewrite indexOf_cons_1 in E.
    apply Z.eqb_neq in E.
    destruct (scan_slash_split s 1) as (a & rest & Hs & Ha & _); [lia | done |].
    assert (Hseg : is_base_segment (String c a) = true).
    { unfold is_base_segment, no_second_slash.
      rewrite indexOf_cons_1, Ha. reflexivity. }
    exists (String c a), rest. split; [done|].
    assert (Hpath : String c s = String c a ++ "/" ++ rest)
      by (by rewrite append_cons, <- Hs).
    split; [done|]. rewrite Hpath. by apply basePathname_segment.
Qed.

Lemma app_longer (key rest : string) : key ++ "/" ++ rest <> key.
Proof.
  intros H. apply (f_equal len) in H. rewrite !len_app in H.
  pose proof (len_nonneg rest). unfold len at 2 in H. simpl in H. lia.
Qed.

(** X3: a non-empty string [key] is the base segment of [path] exactly
    when [key] is a single segment and [path] is [key], then [/], then
    anything. *)
Theorem basePathname_characterisation (path key : string) :
  key <> "" ->
  (basePathname path = key <->
   is_base_segment key = true /\ exists rest, path = key ++ "/" ++ rest).
Proof.
  intros Hkey. split.
  - intros Hbase.
    destruct (basePathname_cases path)
      as [[_ Hempty] | (key' & rest & Hseg & Hpath & Hbase')].
    + congruence.
    + assert (key' = key) as -> by congruence. split; [done | by exists rest].
  - intros [Hseg [rest ->]]. by apply basePathname_segment.
Qed.

Lemma basePathname_characterisation_witness :
  basePathname "/blog/2025/strategy" = "/blog" <->
  is_base_segment "/blog" = true /\
  exists rest, "/blog/2025/strategy" = "/blog" ++ "/" ++ rest.
Proof.
  apply (basePathname_characterisation "/blog/2025/strategy" "/blog").
  discriminate.
Defined.

(** X4: the base segment is a prefix of the path, and a proper one
    unless the path is empty: step 2 never looks up the full path of a
    non-empty path again. *)
Theorem basePathname_proper_prefix (path : string) :
  (exists rest, path = basePathname path ++ rest) /\
  (basePathname path = path <-> path = "").
Proof.
  destruct (basePathname_cases path)
    as [[_ Hempty] | (key & rest & _ & Hpath & Hbase)].
  - rewrite Hempty. split; [by exists path|]. split; congruence.
  - rewrite Hbase. split; [by exists ("/" ++ rest)|]. split.
    + intros H. rewrite Hpath in H. symmetry in H.
      by apply app_longer in H.
    + intros Hnil. rewrite Hnil in Hpath. apply (f_equal len) in Hpath.
      rewrite !len_app in Hpath.
      pose proof (len_nonneg key). pose proof (len_nonneg rest).
      unfold len at 1 3 in Hpath. simpl in Hpath. lia.
Qed.

(** X5: the base segment never has a [/] at index 1 or later, so taking
    the base segment twice always gives the empty string: the extraction
    is not idempotent on paths with a nested segment. *)
Theorem basePathname_twice (path : string) :
  no_second_slash (basePathname path) = true /\
  basePathname (basePathname path) = "".
Proof.
  assert (H : no_second_slash (basePathname path) = true).
  { destruct (basePathname_cases path)
      as [[_ ->] | (key & rest & Hseg & _ & ->)]; [reflexivity|].
    unfold is_base_segment in Hseg. by apply andb_true_iff in Hseg as [_ ?]. }
  split; [done | by apply basePathname_no_second_slash].
Qed.

End BaseSegmentShape.

(** ** The registry *)

Lemma disabled_ext (routes1 routes2 : Routes) :
  (forall k, routes1 !! k = Some false <-> routes2 !! k = Some false) ->
  forall key, disabled routes1 key = disabled routes2 key.
Proof.
  intros H key. specialize (H key). rewrite <- !disabled_spec in H.
  destruct (disabled routes1 key), (disabled routes2 key); intuition congruence.
Qed.

Lemma disabled_insert (routes : Routes) (k key : string) (b : bool) :
  disabled (<[k:=b]> routes) key =
  if decide (k = key) then negb b else disabled routes key.
Proof.
  case_decide as Hk.
  - subst. destruct b.
    + apply disabled_false. rewrite lookup_insert_eq. discriminate.
    + apply disabled_spec. by rewrite lookup_insert_eq.
  - unfold disabled, has_property, get_property. by rewrite lookup_insert_ne.
Qed.

Lemma disabled_delete (routes : Routes) (k key : string) :
  disabled (delete k routes) key =
  if decide (k = key) then false else disabled routes key.
Proof.
  case_decide as Hk.
  - subst. apply disabled_false. rewrite lookup_delete_eq. discriminate.
  - unfold disabled, has_property, get_property. by rewrite lookup_delete_ne.
Qed.

(** The two [if] statements in sequence. *)
Lemma middleware_two_checks (routes : Routes) (req : NextRequest) :
  middleware routes req =
  if NextResponse.is_rewrite (full_path_check routes req)
  then full_path_check routes req
  else base_path_check routes req.
Proof.
  unfold middleware, full_path_check, base_path_check.
  by destruct (disabled routes (pathname (nextUrl req))).
Qed.

Lemma middleware_rewrite_iff (routes : Routes) (req : NextRequest) :
  middleware routes req =
    NextResponse.rewrite (new_URL "/not-found" (url req)) <->
  routes !! pathname (nextUrl req) = Some false \/
  routes !! basePathname (pathname (nextUrl req)) = Some false.
Proof.
  rewrite <- !disabled_spec. unfold middleware.
  destruct (disabled routes (pathname (nextUrl req)));
    destruct (disabled routes (basePathname (pathname (nextUrl req))));
    split; auto; try discriminate; intros [|]; discriminate.
Qed.

(** X6: the guard [key in routes && !routes[key]] holds exactly for an
    own key whose flag is [false].  A name inherited from
    [Object.prototype] is found by [in] but reads as a truthy value; a
    name that is neither own nor inherited is not found and reads as
    [undefined]. *)
Theorem guard_own_false_only (routes : Routes) (key : string) :
  (disabled routes key = true <-> routes !! key = Some false) /\
  (routes !! key = None -> key ∈ object_prototype_keys ->
   has_property routes key = true /\
   truthy (get_property routes key) = true /\
   disabled routes key = false) /\
  (routes !! key = None -> key ∉ object_prototype_keys ->
   has_property routes key = false /\
   get_property routes key = JSUndefined /\
   disabled routes key = false).
Proof.
  split; [apply disabled_spec|].
  unfold disabled, has_property, get_property.
  split; intros -> Hkey.
  - by rewrite bool_decide_eq_true_2.
  - by rewrite bool_decide_eq_false_2.
Qed.

Lemma guard_own_false_only_witness :
  (has_property gallery_off "toString" = true /\
   truthy (get_property gallery_off "toString") = true /\
   disabled gallery_off "toString" = false) /\
  (has_property gallery_off "/about" = false /\
   get_property gallery_off "/about" = JSUndefined /\
   disabled gallery_off "/about" = false).
Proof.
  split.
  - apply (proj1 (proj2 (guard_own_false_only gallery_off "toString")));
      [vm_compute; reflexivity | apply (bool_decide_unpack _); exact I].
  - apply (proj2 (proj2 (guard_own_false_only gallery_off "/about")));
      [vm_compute; reflexivity | apply (bool_decide_eq_false_1 _); reflexivity].
Defined.

(** X7: the directive depends on the registry only through its set of
    disabled keys: two registries that disable the same keys answer every
    request alike, whatever enabled entries they hold. *)
Theorem middleware_disabled_keys_only
    (routes1 routes2 : Routes) (req : NextRequest) :
  (forall k, routes1 !! k = Some false <-> routes2 !! k = Some false) ->
  middleware routes1 req = middleware routes2 req.
Proof.
  intros H. unfold middleware. by rewrite !(disabled_ext routes1 routes2 H).
Qed.

Lemma about_on_disables_gallery_only (k : string) :
  about_on !! k = Some false <-> gallery_off !! k = Some false.
Proof.
  unfold about_on, gallery_off. rewrite lookup_insert.
  case_decide as Hk; [|done]. subst k.
  rewrite lookup_singleton_ne by discriminate. split; discriminate.
Qed.

Lemma middleware_disabled_keys_only_witness :
  middleware about_on (request "/gallery/2024") =
  middleware gallery_off (request "/gallery/2024").
Proof.
  apply (middleware_disabled_keys_only about_on gallery_off).
  exact about_on_disables_gallery_only.
Defined.

(** X8: disabling more keys never lets a request through that was
    rewritten before. *)
Theorem middleware_monotone (routes1 routes2 : Routes) (req : NextRequest) :
  (forall k, routes1 !! k = Some false -> routes2 !! k = Some false) ->
  NextResponse.is_rewrite (middleware routes1 req) = true ->
  middleware routes2 req =
  NextResponse.rewrite (new_URL "/not-found" (url req)).
Proof.
  intros Hsub Hrw. apply middleware_rewrite_iff.
  destruct (middleware_rewrite_iff routes1 req) as [Hdir _].
  destruct Hdir as [H | H]; [|by left; apply Hsub | by right; apply Hsub].
  unfold middleware in *.
  destruct (disabled routes1 (pathname (nextUrl req))); [done|].
  by destruct (disabled routes1 (basePathname (pathname (nextUrl req)))).
Qed.

Lemma gallery_off_below_about_gallery_off (k : string) :
  gallery_off !! k = Some false -> about_gallery_off !! k = Some false.
Proof.
  unfold gallery_off, about_gallery_off. intros [<- _]%lookup_singleton_Some.
  reflexivity.
Qed.

Lemma middleware_monotone_witness :
  middleware about_gallery_off (request "/gallery/2024") =
  NextResponse.rewrite (new_URL "/not-found" (url (request "/gallery/2024"))).
Proof.
  apply (middleware_monotone gallery_off about_gallery_off).
  - exact gallery_off_below_about_gallery_off.
  - reflexivity.
Defined.

(** X9: how one registry update changes the answers.  Setting a flag to
    [true] is the same as removing the entry; setting it to [false]
    rewrites every request whose full path or base segment is that key;
    and an update or removal of key [k] leaves every request alone whose
    full path and base segment both differ from [k]. *)
Theorem middleware_update (routes : Routes) (k : string) (req : NextRequest) :
  middleware (<[k:=true]> routes) req = middleware (delete k routes) req /\
  (pathname (nextUrl req) = k \/ basePathname (pathname (nextUrl req)) = k ->
   middleware (<[k:=false]> routes) req =
   NextResponse.rewrite (new_URL "/not-found" (url req))) /\
  (pathname (nextUrl req) <> k ->
   basePathname (pathname (nextUrl req)) <> k ->
   forall b, middleware (<[k:=b]> routes) req = middleware routes req /\
             middleware (delete k routes) req = middleware routes req).
Proof.
  split; [|split].
  - unfold middleware. rewrite !disabled_insert, !disabled_delete.
    by repeat case_decide.
  - intros Hk. apply middleware_rewrite_iff.
    destruct Hk as [<- | <-]; [left | right]; apply lookup_insert_eq.
  - intros H1 H2 b. unfold middleware.
    rewrite !disabled_insert, !disabled_delete.
    by repeat case_decide.
Qed.

Lemma middleware_update_witness :
  middleware (<["/work":=false]> gallery_off) (request "/work/my-project") =
    NextResponse.rewrite
      (new_URL "/not-found" (url (request "/work/my-project"))) /\
  (forall b,
     middleware (<["/work":=b]> gallery_off) (request "/gallery") =
       middleware gallery_off (request "/gallery") /\
     middleware (delete "/work" gallery_off) (request "/gallery") =
       middleware gallery_off (request "/gallery")).
Proof.
  split.
  - apply (proj1 (proj2 (middleware_update gallery_off "/work"
                           (request "/work/my-project")))).
    right. reflexivity.
  - apply (proj2 (proj2 (middleware_update gallery_off "/work"
                           (request "/gallery")))); discriminate.
Defined.

(** X11: when every disabled key of the registry is a single segment,
    only one of the two checks can ever fire: a path without a second
    slash is decided by the full-path check alone, a path with one by the
    base-segment check alone. *)
Theorem middleware_single_segment_keys (routes : Routes) (req : NextRequest) :
  (forall k, routes !! k = Some false -> is_base_segment k = true) ->
  middleware routes req =
  if no_second_slash (pathname (nextUrl req))
  then full_path_check routes req
  else base_path_check routes req.
Proof.
  intros Hkeys.
  assert (Hempty : disabled routes "" = false).
  { apply disabled_false. intros H%Hkeys. discriminate. }
  unfold middleware, full_path_check, base_path_check.
  destruct (basePathname_cases (pathname (nextUrl req)))
    as [[Hno Hbase] | (key & rest & Hseg & Hpath & Hbase)].
  - rewrite Hno, Hbase, Hempty.
    by destruct (disabled routes (pathname (nextUrl req))).
  - assert (Hslash : no_second_slash (pathname (nextUrl req)) = false).
    { destruct (no_second_slash (pathname (nextUrl req))) eqn:E; [|done].
      apply basePathname_no_second_slash in E.
      rewrite E in Hbase. subst key. discriminate. }
    assert (Hfull : disabled routes (pathname (nextUrl req)) = false).
    { apply disabled_false. intros H%Hkeys.
      unfold is_base_segment in H. apply andb_true_iff in H as [_ H].
      congruence. }
    by rewrite Hslash, Hfull.
Qed.

Lemma pages_disabled_keys (k : string) :
  pages !! k = Some false -> k = "/work" \/ k = "/gallery".
Proof.
  destruct (decide (k = "/work")) as [->|Hwork]; [auto|].
  destruct (decide (k = "/gallery")) as [->|Hgallery]; [auto|].
  unfold pages. intros H. exfalso.
  repeat (rewrite lookup_insert in H; case_decide; [by subst|]).
  by rewrite lookup_singleton_ne in H.
Qed.

Lemma pages_single_segment_keys (k : string) :
  pages !! k = Some false -> is_base_segment k = true.
Proof. by intros [-> | ->]%pages_disabled_keys. Qed.

Lemma middleware_single_segment_keys_witness :
  middleware pages (request "/work/my-project") =
    base_path_check pages (request "/work/my-project") /\
  middleware pages (request "/about") =
    full_path_check pages (request "/about").
Proof.
  split.
  - apply (middleware_single_segment_keys pages (request "/work/my-project")).
    exact pages_single_segment_keys.
  - apply (middleware_single_segment_keys pages (request "/about")).
    exact pages_single_segment_keys.
Defined.

(** ** The middleware behind its matcher *)



(** ** The computed base segment against the specified one *)

Section SpecSegment.

Import JSString.

Lemma up_to_slash_cons (c : Ascii.ascii) (s : string) :
  up_to_slash (String c s) =
  if bool_decide (c = "/"%char) then "" else String c (up_to_slash s).
Proof.
  cbn [up_to_slash]. destruct (Ascii.eqb_spec c "/") as [-> | Hne].
  - by rewrite bool_decide_eq_true_2.
  - by rewrite bool_decide_eq_false_2.
Qed.

Lemma up_to_slash_none (s : string) (k : Z) :
  0 <= k -> scan "/" s k = -1 -> up_to_slash s = s.
Proof.
  revert k. induction s as [|c s IH]; intros k Hk Hs; [reflexivity|].
  rewrite scan_cons, prefix_slash_cons in Hs. rewrite up_to_slash_cons.
  case_bool_decide; [lia|]. by rewrite (IH (k + 1)) by (lia || done).
Qed.

Lemma up_to_slash_app (a rest : string) (k : Z) :
  0 <= k -> scan "/" a k = -1 -> up_to_slash (a ++ "/" ++ rest) = a.
Proof.
  revert k. induction a as [|c a IH]; intros k Hk Ha.
  - rewrite append_nil, append_cons, up_to_slash_cons.
    by rewrite bool_decide_eq_true_2.
  - rewrite scan_cons, prefix_slash_cons in Ha.
    rewrite append_cons, up_to_slash_cons.
    case_bool_decide; [lia|]. by rewrite (IH (k + 1)) by (lia || done).
Qed.

(** Without a second slash the specified base segment is the whole
    path. *)
Lemma spec_base_segment_single (path : string) :
  no_second_slash path = true -> spec_base_segment path = path.
Proof.
  destruct path as [|c s]; [reflexivity|].
  unfold no_second_slash. rewrite indexOf_cons_1. intros H%Z.eqb_eq.
  cbn [spec_base_segment]. by rewrite (up_to_slash_none s 1) by (lia || done).
Qed.

Lemma spec_base_segment_nested (key rest : string) :
  is_base_segment key = true ->
  spec_base_segment (key ++ "/" ++ rest) = key.
Proof.
  unfold is_base_segment, no_second_slash.
  intros [Hne Hidx%Z.eqb_eq]%andb_true_iff.
  destruct key as [|c a]; [discriminate|].
  rewrite indexOf_cons_1 in Hidx. rewrite append_cons.
  cbn [spec_base_segment]. by rewrite (up_to_slash_app a rest 1) by (lia || done).
Qed.

(** With a second slash the code computes the specified base segment. *)
Lemma basePathname_meets_spec (path : string) :
  no_second_slash path = false -> basePathname path = spec_base_segment path.
Proof.
  intros Hslash.
  destruct (basePathname_cases path)
    as [[Hno _] | (key & rest & Hseg & -> & ->)]; [congruence|].
  by rewrite spec_base_segment_nested.
Qed.

(** As long as the empty key is not disabled, the middleware is the gate
    of the specification: pass-through exactly when neither the full
    path nor the specified base segment is a disabled key. *)
Lemma middleware_meets_spec (routes : Routes) (req : NextRequest) :
  routes !! "" <> Some false ->
  (middleware routes req = NextResponse.next <->
   routes !! pathname (nextUrl req) <> Some false /\
   routes !! spec_base_segment (pathname (nextUrl req)) <> Some false).
Proof.
  intros Hempty. rewrite middleware_next_iff.
  destruct (no_second_slash (pathname (nextUrl req))) eqn:E.
  - rewrite (basePathname_no_second_slash _ E), (spec_base_segment_single _ E).
    tauto.
  - by rewrite (basePathname_meets_spec _ E).
Qed.

Lemma absolute_path_segment (key rest : string) :
  is_base_segment key = true ->
  absolute_path (key ++ "/" ++ rest) = absolute_path key.
Proof.
  unfold is_base_segment. intros [Hne _]%andb_true_iff.
  destruct key as [|c a]; [discriminate|].
  unfold absolute_path. by rewrite append_cons, !prefix_slash_cons.
Qed.

(** The base segment of a path starts like the path, unless it is
    empty. *)
Lemma absolute_path_base (path : string) :
  basePathname path = "" \/
  absolute_path (basePathname path) = absolute_path path.
Proof.
  destruct (basePathname_cases path)
    as [[_ ->] | (key & rest & Hseg & -> & ->)]; [by left | right].
  by rewrite absolute_path_segment.
Qed.

End SpecSegment.

(** ** Claims that speak of the base segment *)



Lemma gallery_off_absolute_keys (k : string) :
  gallery_off !! k = Some false -> absolute_path k = true.
Proof.
  unfold gallery_off. by intros [<- _]%lookup_singleton_Some.
Qed.

(** C6: a path that is empty or otherwise malformed (it does not start
    with [/]) raises nothing and matches nothing: it passes through.
    This holds for every such path exactly when the registry disables
    path keys only, keys that start with [/]. *)
Theorem middleware_malformed_path (routes : Routes) :
  (forall k, routes !! k = Some false -> absolute_path k = true) <->
  (forall req, absolute_path (pathname (nextUrl req)) = false ->
               middleware routes req = NextResponse.next).
Proof.
  split.
  - intros Hkeys req Hmal. apply middleware_next_iff. split.
    + intros H%Hkeys. congruence.
    + intros H%Hkeys.
      destruct (absolute_path_base (pathname (nextUrl req))) as [E | E].
      * rewrite E in H. discriminate.
      * congruence.
  - intros Hpass k Hk.
    destruct (absolute_path k) eqn:E; [done|].
    specialize (Hpass (request k) E).
    apply middleware_next_iff in Hpass as [Hfull _]. by destruct Hfull.
Qed.

Lemma middleware_malformed_path_witness :
  middleware gallery_off (request "") = NextResponse.next /\
  middleware gallery_off (request "gallery/extra") = NextResponse.next.
Proof.
  split.
  - apply (proj1 (middleware_malformed_path gallery_off)
             gallery_off_absolute_keys (request "")).
    reflexivity.
  - apply (proj1 (middleware_malformed_path gallery_off)
             gallery_off_absolute_keys (request "gallery/extra")).
    reflexivity.
Defined.

(** ** Registries that never rewrite *)

(** X10: over requests whose pathname starts with [/], a registry lets
    every request through exactly when it disables neither the empty key
    nor any key that starts with [/]; disabled keys of any other form
    are never looked up. *)
Theorem middleware_never_rewrites_iff (routes : Routes) :
  (forall req, absolute_path (pathname (nextUrl req)) = true ->
               middleware routes req = NextResponse.next) <->
  (routes !! "" <> Some false /\
   forall k, absolute_path k = true -> routes !! k <> Some false).
Proof.
  split.
  - intros Hpass. split.
    + specialize (Hpass (request "/") eq_refl).
      by apply middleware_next_iff in Hpass as [_ Hbase].
    + intros k Hk. specialize (Hpass (request k) Hk).
      by apply middleware_next_iff in Hpass as [Hfull _].
  - intros [Hempty Hkeys] req Habs. apply middleware_next_iff. split.
    + by apply Hkeys.
    + destruct (absolute_path_base (pathname (nextUrl req))) as [E | E].
      * by rewrite E.
      * apply Hkeys. congruence.
Qed.

Lemma relative_key_off_never_rewrites (k : string) :
  absolute_path k = true ->
  ({[ "foo" := false ]} : Routes) !! k <> Some false.
Proof.
  intros Habs [<- _]%lookup_singleton_Some. discriminate.
Qed.

Lemma middleware_never_rewrites_iff_witness :
  middleware {[ "foo" := false ]} (request "/foo/bar") = NextResponse.next.
Proof.
  apply (proj2 (middleware_never_rewrites_iff {[ "foo" := false ]})).
  - split; [by vm_compute | exact relative_key_off_never_rewrites].
  - reflexivity.
Defined.
